(** * Haystack pipelines: the YAML pipeline descriptors and the custom nodes

    The repository holds a sample pipeline descriptor
    (test/samples/pipeline/test_pipeline.yaml), the Pipelines tutorial
    notebook with a second descriptor embedded in a markdown cell, three
    pipelines assembled by [add_node] calls, and two node classes written in
    Python ([NodeTemplate] and [QueryClassifier]).

    The descriptors are transcribed as YAML value trees, the pipelines as
    lists of [add_node] calls, and the two [run] methods as functions into an
    error monad over Python values. *)

From Stdlib Require Import Ascii String DecimalString DecimalNat.
From stdpp Require Import base option list strings gmap relations.

Local Open Scope string_scope.
Set Warnings "-register-all".

(** ** YAML values *)

Module Yaml.

(** A YAML document after loading: scalars, sequences and mappings.
    Mappings keep the order of the file. *)
Inductive yaml : Type :=
  | YNull
  | YBool (b : bool)
  | YInt (z : Z)
  | YStr (s : string)
  | YSeq (items : list yaml)
  | YMap (entries : list (string * yaml)).

Definition is_mapping (y : yaml) : bool :=
  match y with YMap _ => true | _ => false end.

Definition is_scalar (y : yaml) : bool :=
  match y with YSeq _ | YMap _ => false | _ => true end.

Definition entries_of (y : yaml) : list (string * yaml) :=
  match y with YMap es => es | _ => [] end.

Definition keys (y : yaml) : list string := (entries_of y).*1.

Fixpoint assoc (k : string) (es : list (string * yaml)) : option yaml :=
  match es with
  | [] => None
  | (k', v) :: es' => if decide (k = k') then Some v else assoc k es'
  end.

(** [y[k]] on a mapping. *)
Definition get (k : string) (y : yaml) : option yaml :=
  match y with YMap es => assoc k es | _ => None end.

Definition as_str (y : yaml) : option string :=
  match y with YStr s => Some s | _ => None end.

Definition as_seq (y : yaml) : option (list yaml) :=
  match y with YSeq ys => Some ys | _ => None end.

Definition as_map (y : yaml) : option (list (string * yaml)) :=
  match y with YMap es => Some es | _ => None end.

Definition get_str (k : string) (y : yaml) : option string :=
  match get k y with Some v => as_str v | None => None end.

Definition get_seq (k : string) (y : yaml) : option (list yaml) :=
  match get k y with Some v => as_seq v | None => None end.

Definition get_map (k : string) (y : yaml) : option (list (string * yaml)) :=
  match get k y with Some v => as_map v | None => None end.

Definition has_keys (ks : list string) (y : yaml) : bool :=
  is_mapping y && forallb (fun k => bool_decide (k ∈ keys y)) ks.

End Yaml.
Export Yaml.

(** ** The descriptors present in the repository *)

(** test/samples/pipeline/test_pipeline.yaml *)
Definition test_pipeline_yaml : yaml :=
  YMap [
    ("version", YStr "0.7");
    ("components", YSeq [
      YMap [ ("name", YStr "Reader");
             ("type", YStr "FARMReader");
             ("params", YMap [
                ("no_ans_boost", YInt (-10));
                ("model_name_or_path", YStr "deepset/roberta-base-squad2") ]) ];
      YMap [ ("name", YStr "ESRetriever");
             ("type", YStr "ElasticsearchRetriever");
             ("params", YMap [
                ("document_store", YStr "DocumentStore");
                ("custom_query", YNull) ]) ];
      YMap [ ("name", YStr "DocumentStore");
             ("type", YStr "ElasticsearchDocumentStore");
             ("params", YMap [
                ("index", YStr "haystack_test");
                ("label_index", YStr "haystack_test_label") ]) ];
      YMap [ ("name", YStr "PDFConverter");
             ("type", YStr "PDFToTextConverter");
             ("params", YMap [
                ("remove_numeric_tables", YBool false) ]) ];
      YMap [ ("name", YStr "Preprocessor");
             ("type", YStr "PreProcessor");
             ("params", YMap [
                ("clean_whitespace", YBool true) ]) ] ]);
    ("pipelines", YSeq [
      YMap [ ("name", YStr "query_pipeline");
             ("type", YStr "Query");
             ("nodes", YSeq [
                YMap [ ("name", YStr "ESRetriever");
                       ("inputs", YSeq [YStr "Query"]) ];
                YMap [ ("name", YStr "Reader");
                       ("inputs", YSeq [YStr "ESRetriever"]) ] ]) ];
      YMap [ ("name", YStr "indexing_pipeline");
             ("type", YStr "Indexing");
             ("nodes", YSeq [
                YMap [ ("name", YStr "PDFConverter");
                       ("inputs", YSeq [YStr "File"]) ];
                YMap [ ("name", YStr "Preprocessor");
                       ("inputs", YSeq [YStr "PDFConverter"]) ];
                YMap [ ("name", YStr "ESRetriever");
                       ("inputs", YSeq [YStr "Preprocessor"]) ];
                YMap [ ("name", YStr "DocumentStore");
                       ("inputs", YSeq [YStr "ESRetriever"]) ] ]) ] ])
  ].

(** The descriptor embedded in the "YAML Configs" cell of the Pipelines
    tutorial. *)
Definition tutorial_yaml : yaml :=
  YMap [
    ("version", YStr "0.7");
    ("components", YSeq [
      YMap [ ("name", YStr "MyReader");
             ("type", YStr "FARMReader");
             ("params", YMap [
                ("no_ans_boost", YInt (-10));
                ("model_name_or_path", YStr "deepset/roberta-base-squad2") ]) ];
      YMap [ ("name", YStr "MyESRetriever");
             ("type", YStr "ElasticsearchRetriever");
             ("params", YMap [
                ("document_store", YStr "MyDocumentStore");
                ("custom_query", YNull) ]) ];
      YMap [ ("name", YStr "MyDocumentStore");
             ("type", YStr "ElasticsearchDocumentStore");
             ("params", YMap [
                ("index", YStr "haystack_test") ]) ] ]);
    ("pipelines", YSeq [
      YMap [ ("name", YStr "my_query_pipeline");
             ("nodes", YSeq [
                YMap [ ("name", YStr "MyESRetriever");
                       ("inputs", YSeq [YStr "Query"]) ];
                YMap [ ("name", YStr "MyReader");
                       ("inputs", YSeq [YStr "MyESRetriever"]) ] ]) ] ])
  ].

(** Every YAML pipeline descriptor of the repository. *)
Definition repository_descriptors : list yaml :=
  [test_pipeline_yaml; tutorial_yaml].

(** The two top-level sections, as raw lists. *)
Definition raw_components (d : yaml) : list yaml :=
  default [] (get_seq "components" d).

Definition raw_pipelines (d : yaml) : list yaml :=
  default [] (get_seq "pipelines" d).

Definition raw_nodes (p : yaml) : list yaml :=
  default [] (get_seq "nodes" p).

(** ** Typed view of a descriptor

    The loader reads [name], [type] and [params] of each component, and
    [name], [nodes] of each pipeline ([type] is read when present), then
    [name] and [inputs] of each node. *)

Record Node := {
  node_name : string;
  node_inputs : list string
}.

Record PipelineDef := {
  pipeline_name : string;
  pipeline_type : option string;
  pipeline_nodes : list Node
}.

Record Component := {
  component_name : string;
  component_type : string;
  component_params : list (string * yaml)
}.

Record Descriptor := {
  version : option string;
  components : list Component;
  pipelines : list PipelineDef
}.

Definition decode_node (y : yaml) : option Node :=
  n ← get_str "name" y;
  ins ← get_seq "inputs" y;
  ins ← mapM as_str ins;
  Some {| node_name := n; node_inputs := ins |}.

Definition decode_pipeline (y : yaml) : option PipelineDef :=
  n ← get_str "name" y;
  ns ← get_seq "nodes" y;
  ns ← mapM decode_node ns;
  Some {| pipeline_name := n;
          pipeline_type := get_str "type" y;
          pipeline_nodes := ns |}.

Definition decode_component (y : yaml) : option Component :=
  n ← get_str "name" y;
  t ← get_str "type" y;
  ps ← get_map "params" y;
  Some {| component_name := n; component_type := t; component_params := ps |}.

Definition decode_descriptor (y : yaml) : option Descriptor :=
  cs ← get_seq "components" y;
  cs ← mapM decode_component cs;
  ps ← get_seq "pipelines" y;
  ps ← mapM decode_pipeline ps;
  Some {| version := get_str "version" y;
          components := cs;
          pipelines := ps |}.

(** The sample descriptor, decoded. *)
Definition test_pipeline : Descriptor :=
  default {| version := None; components := []; pipelines := [] |}
          (decode_descriptor test_pipeline_yaml).

(** The tutorial's descriptor, decoded. *)
Definition tutorial_pipeline : Descriptor :=
  default {| version := None; components := []; pipelines := [] |}
          (decode_descriptor tutorial_yaml).

Definition component_names (d : Descriptor) : list string :=
  component_name <$> components d.

Definition node_names (p : PipelineDef) : list string :=
  node_name <$> pipeline_nodes p.

(** ** Node inputs and output-edge suffixes *)

(** The sentinel sources a root node may name as its input. *)
Definition sentinels : list string := ["Query"; "File"].

(** [s.split(".")] at the first dot: the text before it and, when there is a
    dot, the text after it. *)
Fixpoint split_dot (s : string) : string * option string :=
  match s with
  | EmptyString => (EmptyString, None)
  | String c r =>
      if decide (c = "."%char) then (EmptyString, Some r)
      else let '(h, t) := split_dot r in (String c h, t)
  end.

Fixpoint strip_prefix (p s : string) : option string :=
  match p, s with
  | EmptyString, _ => Some s
  | String a p', String b s' =>
      if decide (a = b) then strip_prefix p' s' else None
  | String _ _, EmptyString => None
  end.

Inductive input_ref : Type :=
  | Plain (node : string)
  | Qualified (node : string) (edge : nat)
  | Malformed.

(** Modelled from the spec: the reading of an entry of [inputs], which the
    framework's [add_node] does outside this repository. An input is an
    upstream node name, "optionally qualified with an output-edge suffix
    (e.g. NodeName.output_2)": the name, a dot, [output_] and the decimal
    number of the edge. *)
Definition parse_input (i : string) : input_ref :=
  match split_dot i with
  | (n, None) => Plain n
  | (n, Some suffix) =>
      match strip_prefix "output_" suffix with
      | Some digits =>
          match NilZero.uint_of_string digits with
          | Some d => Qualified n (Nat.of_uint d)
          | None => Malformed
          end
      | None => Malformed
      end
  end.

Definition input_node_name (i : string) : string := (split_dot i).1.

Definition is_qualified (i : string) : bool :=
  match (split_dot i).2 with Some _ => true | None => false end.

(** Modelled from the spec: the names of the outgoing edges of a node with
    [n] outgoing edges, [output_1] to [output_n]; the framework that
    interprets them is outside this repository. *)
Definition edge_name (k : nat) : string :=
  "output_" +:+ NilZero.string_of_uint (Nat.to_uint k).

Definition edge_names (n : nat) : list string := edge_name <$> seq 1 n.

(** ** The node graph of a pipeline *)

Section Graph.
Variable nodes : list Node.

(** An edge runs from each name listed in a node's [inputs] to that node. *)
Definition edge (u v : string) : Prop :=
  ∃ n i, n ∈ nodes ∧ node_name n = v ∧ i ∈ node_inputs n
         ∧ input_node_name i = u.

(** No vertex reaches itself along one or more edges. *)
Definition acyclic : Prop := ∀ v, ¬ tc edge v v.
End Graph.

(** Position of the first occurrence of [v] in [l]; [length l] when absent. *)
Fixpoint rank (l : list string) (v : string) : nat :=
  match l with
  | [] => 0
  | x :: l' => if decide (x = v) then 0 else S (rank l' v)
  end.

(** The nodes are listed in dependency order: every input names a sentinel
    or a node listed before, and no node repeats an earlier name. *)
Fixpoint topo_sorted (seen : list string) (nodes : list Node) : bool :=
  match nodes with
  | [] => true
  | n :: rest =>
      forallb (fun i => bool_decide (input_node_name i ∈ seen)) (node_inputs n)
      && bool_decide (node_name n ∉ seen)
      && topo_sorted (seen ++ [node_name n]) rest
  end.

(** The names a pipeline input may resolve to: the components and the nodes
    declared in the descriptor. *)
Definition declared_names (d : Descriptor) : list string :=
  component_names d ++ concat (node_names <$> pipelines d).

Definition resolves (d : Descriptor) (i : string) : Prop :=
  input_node_name i ∈ declared_names d ∨ input_node_name i ∈ sentinels.

(** ** Component parameters *)

(** A parameter refers to a component when its value is the name of one. *)
Definition is_reference (d : Descriptor) (v : yaml) : bool :=
  match v with
  | YStr s => bool_decide (s ∈ component_names d)
  | _ => false
  end.

(** A parameter of component [c] that names a component other than [c]. *)
Definition refers_to_other (d : Descriptor) (c : Component) (v : yaml) : bool :=
  match v with
  | YStr s => bool_decide (s ∈ component_names d ∧ s ≠ component_name c)
  | _ => false
  end.

(** A literal configuration value: a scalar that names no component. *)
Definition is_literal (d : Descriptor) (v : yaml) : bool :=
  is_scalar v && negb (is_reference d v).

(** The reference graph: (component, parameter, referenced component). *)
Definition param_refs (d : Descriptor) : list (string * string * string) :=
  c ← components d;
  kv ← component_params c;
  match kv.2 with
  | YStr s =>
      if decide (s ∈ component_names d) then [(component_name c, kv.1, s)]
      else []
  | _ => []
  end.

(** ** Python values, exceptions and results *)

Module Py.

Inductive value : Type :=
  | VNone
  | VBool (b : bool)
  | VInt (z : Z)
  | VStr (s : string)
  | VList (items : list value).

Inductive exn : Type :=
  | KeyError (key : string)
  | TypeError (msg : string).

(** The outcome of a call: a returned value or a raised exception. *)
Inductive result (A : Type) : Type :=
  | Return (a : A)
  | Raise (e : exn).
Global Arguments Return {A} a.
Global Arguments Raise {A} e.

Definition bind {A B} (m : result A) (k : A → result B) : result B :=
  match m with
  | Return a => k a
  | Raise e => Raise e
  end.

(** [d[k]] on a dict with string keys. *)
Definition getitem (d : gmap string value) (k : string) : result value :=
  match d !! k with
  | Some v => Return v
  | None => Raise (KeyError k)
  end.

(** [needle in hay] for two strings: [needle] occurs as a substring. *)
Fixpoint str_contains (needle hay : string) : bool :=
  if String.prefix needle hay then true
  else match hay with
       | EmptyString => false
       | String _ hay' => str_contains needle hay'
       end.

Definition is_str (x : string) (v : value) : bool :=
  match v with VStr s => bool_decide (s = x) | _ => false end.

(** [x in c] for a string [x]: substring test on a string, membership on a
    list, [TypeError] on a value that is not a container. *)
Definition contains (x : string) (c : value) : result bool :=
  match c with
  | VStr s => Return (str_contains x s)
  | VList l => Return (existsb (is_str x) l)
  | VNone => Raise (TypeError "argument of type 'NoneType' is not iterable")
  | VBool _ => Raise (TypeError "argument of type 'bool' is not iterable")
  | VInt _ => Raise (TypeError "argument of type 'int' is not iterable")
  end.

End Py.
Export Py.

Global Instance result_ret : MRet result := @Return.
Global Instance result_bind : MBind result := fun A B k m => Py.bind m k.

(** ** The node classes of the tutorial *)

Module NodeTemplate.
Definition outgoing_edges : nat := 1.

Definition run (kwargs : gmap string value)
  : result (gmap string value * string) :=
  Return (kwargs, "output_1").
End NodeTemplate.

Module QueryClassifier.
Definition outgoing_edges : nat := 2.

Definition run (kwargs : gmap string value)
  : result (gmap string value * string) :=
  query ← getitem kwargs "query";
  question ← contains "?" query;
  if question : bool then Return (kwargs, "output_2")
  else Return (kwargs, "output_1").
End QueryClassifier.

(** ** The pipelines assembled in the tutorial *)

(** The objects passed as [component=]. Only [QueryClassifier] is a class of
    this repository; the others are instances of framework classes. *)
Inductive component : Type :=
  | query_classifier
  | es_retriever
  | dpr_retriever
  | reader
  | join_documents (join_mode : string).

(** The class attribute [outgoing_edges], where the class is declared here. *)
Definition declared_outgoing_edges (c : component) : option nat :=
  match c with
  | query_classifier => Some QueryClassifier.outgoing_edges
  | _ => None
  end.

(** One [add_node(component=..., name=..., inputs=[...])] call. *)
Record add_node := {
  component_of : component;
  name : string;
  inputs : list string
}.

Definition p_extractive : list add_node := [
  {| component_of := es_retriever; name := "Retriever"; inputs := ["Query"] |};
  {| component_of := reader; name := "Reader"; inputs := ["Retriever"] |}
].

Definition p_ensemble : list add_node := [
  {| component_of := es_retriever; name := "ESRetriever";
     inputs := ["Query"] |};
  {| component_of := dpr_retriever; name := "DPRRetriever";
     inputs := ["Query"] |};
  {| component_of := join_documents "concatenate"; name := "JoinResults";
     inputs := ["ESRetriever"; "DPRRetriever"] |};
  {| component_of := reader; name := "Reader"; inputs := ["JoinResults"] |}
].

Definition p_classifier : list add_node := [
  {| component_of := query_classifier; name := "QueryClassifier";
     inputs := ["Query"] |};
  {| component_of := es_retriever; name := "ESRetriever";
     inputs := ["QueryClassifier.output_1"] |};
  {| component_of := dpr_retriever; name := "DPRRetriever";
     inputs := ["QueryClassifier.output_2"] |};
  {| component_of := reader; name := "QAReader";
     inputs := ["ESRetriever"; "DPRRetriever"] |}
].

(** The inputs of a pipeline that carry an output-edge suffix. *)
Definition qualified_inputs (p : list add_node) : list string :=
  filter (fun i => is_qualified i = true) (p ≫= inputs).

Definition descriptor_inputs (d : Descriptor) : list string :=
  p ← pipelines d; n ← pipeline_nodes p; node_inputs n.

Definition yaml_qualified_inputs (d : Descriptor) : list string :=
  filter (fun i => is_qualified i = true) (descriptor_inputs d).

(** The node a qualified input refers to has several outgoing edges, and the
    selected edge is one of them. *)
Definition edge_in_range (p : list add_node) (i : string) : Prop :=
  ∃ n k c e,
    parse_input i = Qualified n k ∧ c ∈ p ∧ name c = n
    ∧ declared_outgoing_edges (component_of c) = Some e
    ∧ (1 < e)%nat ∧ (1 ≤ k ≤ e)%nat.

(** ** Shapes of the entries of a descriptor *)

(** A node entry: a mapping with [name] and [inputs], the latter a
    sequence. *)
Definition node_shape (n : yaml) : Prop :=
  has_keys ["name"; "inputs"] n = true
  ∧ is_Some (get_seq "inputs" n).

(** A pipeline entry: a mapping with the keys [ks], whose [nodes] is a
    sequence of node entries. *)
Definition pipeline_shape (ks : list string) (p : yaml) : Prop :=
  has_keys ks p = true
  ∧ is_Some (get_seq "nodes" p)
  ∧ Forall node_shape (raw_nodes p).

(** A component entry: a mapping with exactly [name], [type] and
    [params]. *)
Definition component_shape (c : yaml) : Prop :=
  is_mapping c = true ∧ keys c = ["name"; "type"; "params"].

(** The nodes of a pipeline are in dependency order from the sentinels. *)
Definition well_formed_pipeline (p : PipelineDef) : bool :=
  topo_sorted sentinels (pipeline_nodes p).

(** The parameters of a descriptor split into [document_store], which names
    another declared component, and literal values. *)
Definition params_classified (d : Descriptor) : Prop :=
  Forall (fun c =>
    Forall (fun kv =>
      (if decide (kv.1 = "document_store")
       then refers_to_other d c kv.2
       else is_literal d kv.2) = true)
    (component_params c))
  (components d).

(** ** Running and routing *)




(** Modelled from the spec: an entry of [inputs] selects the outgoing edge
    [e] of the node [src]. A qualified entry [src.output_k] selects the
    edge [output_k]; a bare name selects [output_1], the edge of "nodes
    that have one output". *)
Definition selects (src e i : string) : bool :=
  match parse_input i with
  | Plain n => bool_decide (n = src ∧ e = "output_1")
  | Qualified n k => bool_decide (n = src ∧ e = edge_name k)
  | Malformed => false
  end.

(** The nodes of [p] that take the edge [e] of [src] as an input. *)
Definition fed_by (p : list add_node) (src e : string) : list add_node :=
  filter (fun c => existsb (selects src e) (inputs c) = true) p.

(** ** Well-formedness of a descriptor *)

(** Component names, pipeline names, and the node names inside each
    pipeline are pairwise distinct. *)
Definition names_unique (d : Descriptor) : Prop :=
  NoDup (component_names d)
  ∧ NoDup (pipeline_name <$> pipelines d)
  ∧ Forall (fun p => NoDup (node_names p)) (pipelines d).

(** Component [c] has a parameter whose value names component [s]. *)
Definition depends_on (d : Descriptor) (c s : string) : Prop :=
  ∃ k, (c, k, s) ∈ param_refs d.


(** The sentinel inputs of a pipeline, in node order. *)
Definition root_inputs (p : PipelineDef) : list string :=
  filter (fun i => i ∈ sentinels) (pipeline_nodes p ≫= node_inputs).

(** A pipeline with a single entry point: one sentinel input in all, and
    it is the only input of the first node. *)
Definition single_entry (p : PipelineDef) : Prop :=
  ∃ s, root_inputs p = [s]
       ∧ node_inputs <$> head (pipeline_nodes p) = Some [s].

(** * Properties *)

(** Closed decidable statements are settled by evaluation. *)
Local Ltac by_evaluation :=
  apply (bool_decide_unpack _); vm_compute; exact I.

(** ** Dependency order implies acyclicity *)

Section RankFacts.
Implicit Types (l : list string) (v : string).

Lemma rank_elem_lt l v : v ∈ l → (rank l v < length l)%nat.
Proof.
  induction l as [|x l IH]; intros Hv; [by apply elem_of_nil in Hv|].
  cbn. destruct (decide (x = v)) as [->|Hne]; [lia|].
  apply elem_of_cons in Hv as [->|Hv]; [done|].
  specialize (IH Hv). lia.
Qed.

Lemma rank_app_elem l1 l2 v : v ∈ l1 → rank (l1 ++ l2) v = rank l1 v.
Proof.
  induction l1 as [|x l1 IH]; intros Hv; [by apply elem_of_nil in Hv|].
  cbn. destruct (decide (x = v)) as [->|Hne]; [done|].
  apply elem_of_cons in Hv as [->|Hv]; [done|]. by rewrite IH.
Qed.

Lemma rank_app_fresh l1 l2 v : v ∉ l1 → rank (l1 ++ v :: l2) v = length l1.
Proof.
  induction l1 as [|x l1 IH]; intros Hv; cbn.
  - by rewrite decide_True.
  - apply not_elem_of_cons in Hv as [Hne Hv].
    rewrite decide_False by done. by rewrite IH.
Qed.
End RankFacts.

Lemma topo_sorted_cons seen n rest :
  topo_sorted seen (n :: rest) = true →
  Forall (fun i => input_node_name i ∈ seen) (node_inputs n)
  ∧ (node_name n ∉ seen)
  ∧ topo_sorted (seen ++ [node_name n]) rest = true.
Proof.
  cbn. rewrite !andb_true_iff, forallb_forall, bool_decide_eq_true.
  intros [[Hin Hfresh] Hrest]. split_and!; [|done..].
  apply Forall_forall. intros i Hi%list_elem_of_In.
  specialize (Hin i Hi). by apply bool_decide_eq_true in Hin.
Qed.

(** In a pipeline listed in dependency order every edge goes up in rank. *)
Lemma topo_sorted_edge_rank nodes : ∀ seen,
  topo_sorted seen nodes = true →
  ∀ u v, edge nodes u v →
    (rank (seen ++ (node_name <$> nodes)) u
     < rank (seen ++ (node_name <$> nodes)) v)%nat.
Proof.
  induction nodes as [|n rest IH]; intros seen Hts u v (m & i & Hm & Hv & Hi & Hu).
  { by apply elem_of_nil in Hm. }
  apply topo_sorted_cons in Hts as (Hins & Hfresh & Hrest).
  apply elem_of_cons in Hm as [->|Hm].
  - rewrite Forall_forall in Hins. specialize (Hins i Hi).
    rewrite Hu in Hins. subst v. cbn [fmap list_fmap].
    rewrite rank_app_elem by done. rewrite rank_app_fresh by done.
    by apply rank_elem_lt.
  - specialize (IH _ Hrest u v).
    rewrite <-(assoc_L (++)) in IH. apply IH. by exists m, i.
Qed.

Lemma topo_sorted_acyclic seen nodes :
  topo_sorted seen nodes = true → acyclic nodes.
Proof.
  intros Hts.
  pose (r := rank (seen ++ (node_name <$> nodes))).
  assert (∀ u v, tc (edge nodes) u v → (r u < r v)%nat) as Hmono.
  { induction 1 as [u v He|u w v He _ IH].
    - by apply topo_sorted_edge_rank.
    - pose proof (topo_sorted_edge_rank _ _ Hts _ _ He). unfold r in *. lia. }
  intros v Hv%Hmono. lia.
Qed.

Lemma topo_sorted_inputs nodes : ∀ seen,
  topo_sorted seen nodes = true →
  Forall (fun n => Forall (fun i => input_node_name i
                                    ∈ (seen ++ (node_name <$> nodes))%list)
                          (node_inputs n)) nodes.
Proof.
  induction nodes as [|n rest IH]; intros seen Hts; [constructor|].
  apply topo_sorted_cons in Hts as (Hins & Hfresh & Hrest).
  constructor.
  - eapply Forall_impl; [exact Hins|]. cbn. intros i Hi.
    apply elem_of_app. by left.
  - specialize (IH _ Hrest). rewrite <-(assoc_L (++)) in IH.
    exact IH.
Qed.

(** A cycle is rejected: a node that lists itself as input is not in
    dependency order, and its graph has a loop. *)
Lemma self_loop_not_acyclic n nodes :
  n ∈ nodes → node_name n ∈ (input_node_name <$> node_inputs n) →
  ¬ acyclic nodes.
Proof.
  intros Hn (i & Hi & Hin)%list_elem_of_fmap Hac.
  apply (Hac (node_name n)), tc_once. by exists n, i.
Qed.

(** ** The sample descriptor *)

Lemma decode_test_pipeline :
  decode_descriptor test_pipeline_yaml = Some test_pipeline.
Proof. reflexivity. Qed.

Lemma decode_tutorial_pipeline :
  decode_descriptor tutorial_yaml = Some tutorial_pipeline.
Proof. reflexivity. Qed.

Lemma well_formed_pipeline_acyclic p :
  well_formed_pipeline p = true → acyclic (pipeline_nodes p).
Proof. apply topo_sorted_acyclic. Qed.

(** C1: in both pipelines of the sample descriptor (query_pipeline and
    indexing_pipeline) the graph with an edge from each name in a node's
    [inputs] to that node is acyclic, and every name in an [inputs] list is
    a node or component declared in the descriptor or one of the sentinels
    [Query] and [File]. *)
Theorem sample_pipelines_acyclic_and_resolved :
  (pipeline_name <$> pipelines test_pipeline)
    = ["query_pipeline"; "indexing_pipeline"]
  ∧ Forall (fun p =>
      acyclic (pipeline_nodes p)
      ∧ Forall (fun n => Forall (resolves test_pipeline) (node_inputs n))
               (pipeline_nodes p))
      (pipelines test_pipeline).
Proof.
  split; [reflexivity|].
  apply Forall_forall. intros p Hp.
  assert (well_formed_pipeline p = true) as Hwf.
  { revert p Hp. apply Forall_forall. by_evaluation. }
  split; [by apply well_formed_pipeline_acyclic|].
  clear Hwf. revert p Hp. apply Forall_forall.
  unfold resolves. by_evaluation.
Qed.

(** A mapping that has the keys [ks] answers [get] on each of them. *)
Lemma assoc_is_Some k es : k ∈ es.*1 → is_Some (assoc k es).
Proof.
  induction es as [|[k' v] es IH]; cbn; intros Hk.
  - by apply elem_of_nil in Hk.
  - destruct (decide (k = k')); [by eexists|].
    apply elem_of_cons in Hk as [?|Hk]; [done|]. by apply IH.
Qed.

Lemma has_keys_get ks y k :
  has_keys ks y = true → k ∈ ks → is_Some (get k y).
Proof.
  unfold has_keys. rewrite andb_true_iff, forallb_forall.
  intros [Hmap Hall] Hk%list_elem_of_In.
  specialize (Hall k Hk). apply bool_decide_eq_true in Hall.
  destruct y; try discriminate. by apply assoc_is_Some.
Qed.

(** What decodes as a node has the shape of a node entry. *)
Lemma decode_node_shape y n : decode_node y = Some n → node_shape y.
Proof.
  unfold decode_node, node_shape, has_keys, get_str, get_seq, get.
  destruct y as [| | | | |es]; try discriminate. cbn.
  destruct (assoc "name" es) as [v|] eqn:Hn; [|discriminate].
  destruct (assoc "inputs" es) as [w|] eqn:Hi;
    [|by destruct (as_str v)].
  destruct (as_str v); [|discriminate]. cbn.
  destruct (as_seq w) eqn:Hw; [|discriminate]. intros _.
  assert (∀ k u, assoc k es = Some u → k ∈ es.*1) as Hin.
  { clear. induction es as [|[k' v'] es IH]; cbn; intros k u; [done|].
    destruct (decide (k = k')) as [->|]; [intros _; apply elem_of_cons; by left|].
    intros ?%IH. apply elem_of_cons. by right. }
  split; [|by eexists].
  rewrite !andb_true_iff, !bool_decide_eq_true. unfold keys. cbn. eauto.
Qed.

(** C2, as stated, fails: the pipeline entry of the tutorial's descriptor
    has no [type] key. *)
Lemma pipeline_entries_have_type_refuted :
  ¬ Forall (fun d => Forall (pipeline_shape ["name"; "type"; "nodes"])
                            (raw_pipelines d))
           repository_descriptors.
Proof.
  intros H. apply Forall_cons in H as [_ H].
  apply Forall_cons in H as [H _].
  apply Forall_cons in H as [[H _] _].
  vm_compute in H. discriminate.
Qed.

(** C2, amended: every entry of [pipelines] in the sample descriptor and in
    the tutorial's descriptor is a mapping with the keys [name] and [nodes];
    the two entries of the sample descriptor also have [type], the entry of
    the tutorial has exactly [name] and [nodes]; every element of [nodes]
    is a mapping with the keys [name] and [inputs], and [inputs] is a
    sequence. *)
Theorem pipeline_entries_shape :
  Forall (fun d => Forall (pipeline_shape ["name"; "nodes"])
                          (raw_pipelines d))
         repository_descriptors
  ∧ Forall (pipeline_shape ["name"; "type"; "nodes"])
           (raw_pipelines test_pipeline_yaml)
  ∧ (keys <$> raw_pipelines test_pipeline_yaml)
      = [["name"; "type"; "nodes"]; ["name"; "type"; "nodes"]]
  ∧ (keys <$> raw_pipelines tutorial_yaml) = [["name"; "nodes"]].
Proof.
  unfold pipeline_shape, node_shape.
  split_and!; [by_evaluation|by_evaluation|reflexivity|reflexivity].
Qed.

(** C3: every entry of [components], in the sample descriptor (five
    entries) and in the tutorial's descriptor (three entries), is a mapping
    with exactly the fields [name], [type] and [params]. *)
Theorem component_entries_are_triples :
  Forall (fun d => Forall component_shape (raw_components d))
         repository_descriptors
  ∧ length (raw_components test_pipeline_yaml) = 5%nat
  ∧ length (raw_components tutorial_yaml) = 3%nat.
Proof.
  unfold component_shape.
  split_and!; [by_evaluation|reflexivity|reflexivity].
Qed.

(** C6, as stated, fails: [version] is a top-level key of the sample
    descriptor, and it is neither [components] nor [pipelines]. *)
Lemma top_level_two_sections_refuted :
  ¬ Forall (fun k => k ∈ ["components"; "pipelines"])
           (keys test_pipeline_yaml).
Proof.
  intros H. apply Forall_cons in H as [H _]. revert H. cbn.
  apply (bool_decide_eq_false_1 _). vm_compute. reflexivity.
Qed.

(** C6, amended: the top-level keys of the sample descriptor are [version],
    [components] and [pipelines]: the two sections [components] and
    [pipelines], both sequences, and the [version] string. *)
Theorem top_level_keys :
  keys test_pipeline_yaml = ["version"; "components"; "pipelines"]
  ∧ Forall (fun k => k ∈ ["version"; "components"; "pipelines"])
           (keys test_pipeline_yaml)
  ∧ is_Some (get_seq "components" test_pipeline_yaml)
  ∧ is_Some (get_seq "pipelines" test_pipeline_yaml)
  ∧ get "version" test_pipeline_yaml = Some (YStr "0.7").
Proof.
  split_and!; [reflexivity|by_evaluation|by eexists|by eexists|reflexivity].
Qed.

(** ** Component parameters *)

(** Every entry of the reference graph points at a declared component. *)
Lemma param_refs_resolve d c k s :
  (c, k, s) ∈ param_refs d → s ∈ component_names d.
Proof.
  unfold param_refs.
  intros (c' & Hin & _)%list_elem_of_bind.
  apply list_elem_of_bind in Hin as ([k' v] & Hin & _). cbn in Hin.
  destruct v; try by apply elem_of_nil in Hin.
  case_decide; [|by apply elem_of_nil in Hin].
  apply list_elem_of_singleton in Hin. by simplify_eq.
Qed.

(** C4: in the sample descriptor the only parameter whose value names a
    component is [document_store: DocumentStore] of [ESRetriever], and
    [DocumentStore] is declared there; in the tutorial's descriptor it is
    [document_store: MyDocumentStore] of [MyESRetriever], and
    [MyDocumentStore] is declared there; every other parameter value is a
    scalar that names no component. *)
Theorem param_references_resolve :
  param_refs test_pipeline
    = [("ESRetriever", "document_store", "DocumentStore")]
  ∧ "DocumentStore" ∈ component_names test_pipeline
  ∧ params_classified test_pipeline
  ∧ param_refs tutorial_pipeline
    = [("MyESRetriever", "document_store", "MyDocumentStore")]
  ∧ "MyDocumentStore" ∈ component_names tutorial_pipeline
  ∧ params_classified tutorial_pipeline.
Proof.
  unfold params_classified.
  split_and!.
  - reflexivity.
  - by_evaluation.
  - by_evaluation.
  - reflexivity.
  - by_evaluation.
  - by_evaluation.
Qed.

(** C10: each of the six node entries under [pipelines] in the sample
    descriptor is named after one of its five declared components. *)
Theorem sample_nodes_are_components :
  component_names test_pipeline
    = ["Reader"; "ESRetriever"; "DocumentStore"; "PDFConverter";
       "Preprocessor"]
  ∧ length (pipelines test_pipeline ≫= pipeline_nodes) = 6%nat
  ∧ Forall (fun p => Forall (fun n => node_name n
                                      ∈ component_names test_pipeline)
                            (pipeline_nodes p))
           (pipelines test_pipeline).
Proof.
  split_and!; [reflexivity|reflexivity|by_evaluation].
Qed.

(** ** Output-edge suffixes *)

Lemma split_dot_plain n :
  "."%char ∉ list_ascii_of_string n → split_dot n = (n, None).
Proof.
  induction n as [|c n IH]; cbn [split_dot list_ascii_of_string]; [done|].
  intros [Hc Hn]%not_elem_of_cons.
  destruct (decide (c = "."%char)) as [->|_]; [done|]. by rewrite IH.
Qed.

Lemma split_dot_qualified n suffix :
  "."%char ∉ list_ascii_of_string n →
  split_dot (n +:+ String "." suffix) = (n, Some suffix).
Proof.
  induction n as [|c n IH]; intros Hn.
  - change ("" +:+ String "." suffix) with (String "." suffix).
    cbn [split_dot]. by rewrite decide_True.
  - apply not_elem_of_cons in Hn as [Hc Hn].
    change (String c n +:+ ?s) with (String c (n +:+ s)).
    cbn [split_dot]. rewrite (IH Hn).
    by destruct (decide (c = "."%char)) as [->|_].
Qed.

Lemma strip_prefix_app p s : strip_prefix p (p +:+ s) = Some s.
Proof.
  induction p as [|c p IH].
  - done.
  - change (String c p +:+ s) with (String c (p +:+ s)).
    cbn [strip_prefix]. by rewrite decide_True.
Qed.

(** Reading back the name of the [k]-th outgoing edge of node [n]. *)
Lemma parse_input_edge_name n k :
  "."%char ∉ list_ascii_of_string n →
  parse_input (n +:+ "." +:+ edge_name k) = Qualified n k.
Proof.
  intros Hn. unfold parse_input, edge_name.
  change (n +:+ "." +:+ ?s) with (n +:+ String "." s).
  rewrite split_dot_qualified, strip_prefix_app by done.
  rewrite NilZero.usu.
  - by rewrite DecimalNat.Unsigned.of_to.
  - intros Hnil. destruct k; [vm_compute in Hnil; discriminate|].
    apply (f_equal Nat.of_uint) in Hnil.
    rewrite DecimalNat.Unsigned.of_to in Hnil. discriminate.
Qed.

(** C5: the suffix-qualified inputs of the repository are
    [QueryClassifier.output_1] and [QueryClassifier.output_2] in the
    decision-node pipeline; each refers to the node [QueryClassifier],
    whose class declares [outgoing_edges = 2], more than one, and selects
    an edge not beyond it. Neither descriptor, nor the other two pipelines
    of the tutorial, has a suffix-qualified input. *)
Theorem qualified_inputs_in_range :
  qualified_inputs p_classifier
    = ["QueryClassifier.output_1"; "QueryClassifier.output_2"]
  ∧ Forall (edge_in_range p_classifier) (qualified_inputs p_classifier)
  ∧ QueryClassifier.outgoing_edges = 2%nat
  ∧ yaml_qualified_inputs test_pipeline = []
  ∧ yaml_qualified_inputs tutorial_pipeline = []
  ∧ qualified_inputs p_extractive = []
  ∧ qualified_inputs p_ensemble = [].
Proof.
  split_and!; try reflexivity.
  repeat constructor.
  - exists "QueryClassifier", 1%nat,
      {| component_of := query_classifier; name := "QueryClassifier";
         inputs := ["Query"] |}, 2%nat.
    split_and!; try reflexivity; try (cbv; lia). apply list_elem_of_here.
  - exists "QueryClassifier", 2%nat,
      {| component_of := query_classifier; name := "QueryClassifier";
         inputs := ["Query"] |}, 2%nat.
    split_and!; try reflexivity; try (cbv; lia). apply list_elem_of_here.
Qed.

(** ** The custom nodes *)

(** For a one-character needle, [in] on strings is occurrence of the
    character. *)
Lemma str_contains_char c s :
  str_contains (String c "") s = true ↔ c ∈ list_ascii_of_string s.
Proof.
  induction s as [|a s IH]; cbn.
  - split; [discriminate|]. by intros ?%elem_of_nil.
  - destruct (ascii_dec c a) as [->|Hne].
    + replace (String.prefix "" s) with true by (by destruct s).
      split; [intros _; apply list_elem_of_here|done].
    + rewrite IH, elem_of_cons. split; [by right|by intros [?|?]].
Qed.

Lemma edge_names_classifier :
  edge_names QueryClassifier.outgoing_edges = ["output_1"; "output_2"].
Proof. reflexivity. Qed.

Lemma edge_names_template :
  edge_names NodeTemplate.outgoing_edges = ["output_1"].
Proof. reflexivity. Qed.

Lemma query_classifier_run_str kwargs q :
  kwargs !! "query" = Some (VStr q) →
  QueryClassifier.run kwargs
  = Return (kwargs, if str_contains "?" q then "output_2" else "output_1").
Proof.
  intros Hq. unfold QueryClassifier.run, getitem. rewrite Hq. cbn.
  by destruct (str_contains "?" q).
Qed.

(** C7: when [kwargs] holds a string under ["query"],
    [QueryClassifier.run] returns [(kwargs, "output_2")] if the character
    [?] occurs in that string and [(kwargs, "output_1")] otherwise; the
    mapping comes back as it was given, and the edge is one of the two
    edges the class declares. *)
Theorem query_classifier_run (kwargs : gmap string value) (q : string) :
  kwargs !! "query" = Some (VStr q) →
  ("?"%char ∈ list_ascii_of_string q →
     QueryClassifier.run kwargs = Return (kwargs, "output_2"))
  ∧ ("?"%char ∉ list_ascii_of_string q →
     QueryClassifier.run kwargs = Return (kwargs, "output_1"))
  ∧ ∃ e, QueryClassifier.run kwargs = Return (kwargs, e)
         ∧ e ∈ edge_names QueryClassifier.outgoing_edges.
Proof.
  intros Hq. rewrite (query_classifier_run_str _ _ Hq).
  rewrite edge_names_classifier.
  destruct (str_contains "?" q) eqn:Hc.
  - apply str_contains_char in Hc. split_and!; [done|done|].
    eexists; split; [done|]. apply list_elem_of_further, list_elem_of_here.
  - assert ("?"%char ∉ list_ascii_of_string q) as Hno.
    { intros Hin%str_contains_char. congruence. }
    split_and!; [done|done|].
    eexists; split; [done|]. apply list_elem_of_here.
Qed.

Lemma query_classifier_run_witness :
  QueryClassifier.run {[ "query" := VStr "Who is the father of Arya Stark?" ]}
  = Return ({[ "query" := VStr "Who is the father of Arya Stark?" ]},
            "output_2").
Proof.
  apply (query_classifier_run
           {[ "query" := VStr "Who is the father of Arya Stark?" ]}
           "Who is the father of Arya Stark?").
  - vm_compute. reflexivity.
  - apply (bool_decide_unpack _). vm_compute. exact I.
Defined.

(** C8: neither [run] handles an error. [NodeTemplate.run] never raises;
    [QueryClassifier.run] raises exactly the errors of the two operations
    it performs, the lookup of ["query"] and the test [in], so each of
    them reaches the caller; with the key absent this is
    [KeyError "query"]. *)
Theorem errors_propagate :
  (∀ kwargs e, NodeTemplate.run kwargs ≠ Raise e)
  ∧ (∀ kwargs e,
       QueryClassifier.run kwargs = Raise e
       ↔ getitem kwargs "query" = Raise e
         ∨ ∃ q, getitem kwargs "query" = Return q
                ∧ contains "?" q = Raise e)
  ∧ (∀ kwargs, kwargs !! "query" = None →
       QueryClassifier.run kwargs = Raise (KeyError "query")).
Proof.
  split_and!.
  - intros kwargs e. discriminate.
  - intros kwargs e. unfold QueryClassifier.run.
    destruct (getitem kwargs "query") as [q|e'] eqn:Hget; cbn.
    + destruct (contains "?" q) as [[]|e''] eqn:Hc; cbn.
      * split; [discriminate|]. intros [?|(q' & ? & ?)]; [done|].
        simplify_eq. congruence.
      * split; [discriminate|]. intros [?|(q' & ? & ?)]; [done|].
        simplify_eq. congruence.
      * split; [intros ?; right; exists q; by simplify_eq|].
        intros [?|(q' & ? & ?)]; [done|]. simplify_eq. congruence.
    + split; [intros ?; left; by simplify_eq|].
      intros [?|(q' & ? & ?)]; by simplify_eq.
  - intros kwargs Hnone. unfold QueryClassifier.run, getitem.
    by rewrite Hnone.
Qed.

Lemma errors_propagate_witness :
  QueryClassifier.run ∅ = Raise (KeyError "query")
  ∧ QueryClassifier.run {[ "query" := VNone ]}
    = Raise (TypeError "argument of type 'NoneType' is not iterable").
Proof.
  destruct errors_propagate as (_ & Hiff & Habsent). split.
  - apply Habsent. reflexivity.
  - apply Hiff. right. exists VNone. split; reflexivity.
Defined.

(** C9: [NodeTemplate.run] returns [(kwargs, "output_1")] for every
    [kwargs]: the data passes through unchanged, and the edge is the single
    edge of a class with [outgoing_edges = 1]. *)
Theorem node_template_run (kwargs : gmap string value) :
  NodeTemplate.run kwargs = Return (kwargs, "output_1")
  ∧ NodeTemplate.outgoing_edges = 1%nat
  ∧ edge_names NodeTemplate.outgoing_edges = ["output_1"].
Proof. split_and!; reflexivity. Qed.

(** ** Outcomes of [QueryClassifier.run] *)

Lemma existsb_is_str x l : existsb (is_str x) l = true ↔ VStr x ∈ l.
Proof.
  induction l as [|v l IH]; cbn.
  - split; [discriminate|]. by intros ?%elem_of_nil.
  - rewrite orb_true_iff, IH, elem_of_cons. split.
    + intros [Hv|?]; [left|by right].
      destruct v; try discriminate. cbn in Hv.
      apply bool_decide_eq_true in Hv. by subst.
    + intros [<-|?]; [left|by right]. cbn. by apply bool_decide_eq_true.
Qed.

(** What [run] does is decided by the value under ["query"] alone. *)
Lemma query_classifier_run_cases kwargs :
  QueryClassifier.run kwargs
  = match kwargs !! "query" with
    | None => Raise (KeyError "query")
    | Some v =>
        match contains "?" v with
        | Return true => Return (kwargs, "output_2")
        | Return false => Return (kwargs, "output_1")
        | Raise e => Raise e
        end
    end.
Proof.
  unfold QueryClassifier.run, getitem.
  destruct (kwargs !! "query") as [v|]; [|done]. cbn.
  by destruct (contains "?" v) as [[]|].
Qed.

(** X1: [QueryClassifier.run] raises [KeyError] only for the key ["query"], and
    exactly when [kwargs] has no such key. *)
Theorem key_error_iff_query_absent (kwargs : gmap string value) (k : string) :
  QueryClassifier.run kwargs = Raise (KeyError k)
  ↔ k = "query" ∧ kwargs !! "query" = None.
Proof.
  rewrite query_classifier_run_cases.
  destruct (kwargs !! "query") as [v|].
  - split; [|by intros [_ ?]].
    destruct v; cbn; try discriminate;
      match goal with |- context [if ?b then _ else _] => by destruct b end.
  - split; [by intros [= <-]|by intros [-> _]].
Qed.




(** X4: Keyword arguments other than ["query"] have no part in the routing:
    adding one changes neither the edge nor the exception, and it is passed
    on with the rest. *)
Theorem run_ignores_other_arguments
    (kwargs : gmap string value) (k : string) (v : value) :
  k ≠ "query" →
  QueryClassifier.run (<[k:=v]> kwargs)
  = match QueryClassifier.run kwargs with
    | Return (kw, e) => Return (<[k:=v]> kw, e)
    | Raise ex => Raise ex
    end.
Proof.
  intros Hk. rewrite !query_classifier_run_cases.
  rewrite lookup_insert_ne by done.
  destruct (kwargs !! "query") as [q|]; [|done].
  by destruct (contains "?" q) as [[]|].
Qed.

Lemma run_ignores_other_arguments_witness :
  QueryClassifier.run
    (<["top_k_retriever" := VInt 10]>
       {[ "query" := VStr "Arya Stark father" ]})
  = Return (<["top_k_retriever" := VInt 10]>
              {[ "query" := VStr "Arya Stark father" ]}, "output_1").
Proof.
  rewrite (run_ignores_other_arguments
             {[ "query" := VStr "Arya Stark father" ]}
             "top_k_retriever" (VInt 10)).
  - vm_compute. reflexivity.
  - intros H. discriminate H.
Defined.

(** X5: On a list under ["query"], [in] is membership: the edge is [output_2]
    exactly when the one-character string ["?"] is an element of the list;
    an element that merely contains a question mark does not count. *)
Theorem run_on_list_query (kwargs : gmap string value) (l : list value) :
  kwargs !! "query" = Some (VList l) →
  (VStr "?" ∈ l → QueryClassifier.run kwargs = Return (kwargs, "output_2"))
  ∧ (VStr "?" ∉ l → QueryClassifier.run kwargs = Return (kwargs, "output_1")).
Proof.
  intros Hq. rewrite query_classifier_run_cases, Hq. cbn.
  destruct (existsb (is_str "?") l) eqn:Hex.
  - apply existsb_is_str in Hex. by split.
  - split; [|done]. intros Hin%existsb_is_str. congruence.
Qed.

Lemma run_on_list_query_witness :
  QueryClassifier.run
    {[ "query" := VList [VStr "Who is the father of Arya Stark?"] ]}
  = Return ({[ "query" := VList [VStr "Who is the father of Arya Stark?"] ]},
            "output_1").
Proof.
  apply (run_on_list_query
           {[ "query" := VList [VStr "Who is the father of Arya Stark?"] ]}
           [VStr "Who is the father of Arya Stark?"]).
  - vm_compute. reflexivity.
  - intros H%existsb_is_str. vm_compute in H. discriminate H.
Defined.

(** [in] between two strings is the substring test. *)
Lemma prefix_spec p s :
  String.prefix p s = true ↔ ∃ post, s = p +:+ post.
Proof.
  revert s. induction p as [|a p IH]; intros s.
  - split; [intros _; by exists s|intros _; by destruct s].
  - destruct s as [|b s]; cbn [String.prefix].
    + split; [discriminate|]. intros [post Hpost].
      change (String a p +:+ post) with (String a (p +:+ post)) in Hpost.
      discriminate.
    + destruct (ascii_dec a b) as [->|Hne].
      * rewrite IH. split; intros [post Hpost]; exists post.
        -- change (String b p +:+ post) with (String b (p +:+ post)).
           by rewrite Hpost.
        -- change (String b p +:+ post) with (String b (p +:+ post)) in Hpost.
           by injection Hpost.
      * split; [discriminate|]. intros [post Hpost].
        change (String a p +:+ post) with (String a (p +:+ post)) in Hpost.
        injection Hpost as Hab _. by subst.
Qed.

(** X6: The test [needle in hay] of [QueryClassifier.run] holds exactly when
    [hay] splits as some text, [needle], and some more text. *)
Theorem str_contains_spec (needle hay : string) :
  str_contains needle hay = true
  ↔ ∃ pre post, hay = pre +:+ needle +:+ post.
Proof.
  induction hay as [|c hay IH]; cbn [str_contains].
  - destruct (String.prefix needle "") eqn:Hp.
    + split; [intros _|done].
      apply prefix_spec in Hp as [post Hpost]. by exists "", post.
    + split; [discriminate|]. intros (pre & post & Heq).
      destruct pre as [|a pre].
      * assert (String.prefix needle "" = true) as Hp'.
        { apply prefix_spec. by exists post. }
        congruence.
      * change (String a pre +:+ ?x) with (String a (pre +:+ x)) in Heq.
        discriminate.
  - destruct (String.prefix needle (String c hay)) eqn:Hp.
    + split; [intros _|done].
      apply prefix_spec in Hp as [post Hpost]. by exists "", post.
    + rewrite IH. split.
      * intros (pre & post & ->). exists (String c pre), post.
        by change (String c pre +:+ ?x) with (String c (pre +:+ x)).
      * intros (pre & post & Heq). destruct pre as [|a pre].
        -- assert (String.prefix needle (String c hay) = true) as Hp'.
           { apply prefix_spec. by exists post. }
           congruence.
        -- change (String a pre +:+ ?x) with (String a (pre +:+ x)) in Heq.
           injection Heq as _ ->. by exists pre, post.
Qed.

(** ** The pipelines assembled by [add_node] *)


(** X8: In the decision-node pipeline, the edge [QueryClassifier.run] returns
    for a string query feeds exactly one node: [DPRRetriever] when the
    query has a question mark, [ESRetriever] when it has none. *)
Theorem classifier_routes_query (kwargs : gmap string value) (q : string) :
  kwargs !! "query" = Some (VStr q) →
  ∃ e, QueryClassifier.run kwargs = Return (kwargs, e)
       ∧ name <$> fed_by p_classifier "QueryClassifier" e
         = [if bool_decide ("?"%char ∈ list_ascii_of_string q)
            then "DPRRetriever" else "ESRetriever"].
Proof.
  intros Hq. rewrite (query_classifier_run_str _ _ Hq).
  destruct (str_contains "?" q) eqn:Hc.
  - exists "output_2". split; [done|].
    apply str_contains_char in Hc. by rewrite bool_decide_eq_true_2.
  - exists "output_1". split; [done|].
    rewrite bool_decide_eq_false_2; [done|].
    intros Hin%str_contains_char. congruence.
Qed.

Lemma classifier_routes_query_witness :
  ∃ e, QueryClassifier.run {[ "query" := VStr "Arya Stark father" ]}
       = Return ({[ "query" := VStr "Arya Stark father" ]}, e)
       ∧ name <$> fed_by p_classifier "QueryClassifier" e = ["ESRetriever"].
Proof.
  apply (classifier_routes_query
           {[ "query" := VStr "Arya Stark father" ]} "Arya Stark father").
  vm_compute. reflexivity.
Defined.

(** X9: Only one of the retrievers is fed per request in the decision-node
    pipeline: whenever [QueryClassifier.run] returns, for any value under
    ["query"], the returned edge feeds a single node, and that node is one
    of the two retrievers. In the ensembled pipeline the one edge of
    [Query] feeds both retrievers. *)
Theorem decision_feeds_one_retriever
    (kwargs kw : gmap string value) (e : string) :
  QueryClassifier.run kwargs = Return (kw, e) →
  (∃ c, fed_by p_classifier "QueryClassifier" e = [c]
        ∧ component_of c ∈ [es_retriever; dpr_retriever])
  ∧ component_of <$> fed_by p_ensemble "Query" "output_1"
    = [es_retriever; dpr_retriever].
Proof.
  rewrite query_classifier_run_cases.
  destruct (kwargs !! "query") as [v|]; [|discriminate].
  destruct (contains "?" v) as [[]|]; intros [= <- <-].
  - split; [|reflexivity]. eexists. split; [reflexivity|].
    apply list_elem_of_further, list_elem_of_here.
  - split; [|reflexivity]. eexists. split; [reflexivity|].
    apply list_elem_of_here.
Qed.

Lemma decision_feeds_one_retriever_witness :
  (∃ c, fed_by p_classifier "QueryClassifier" "output_2" = [c]
        ∧ component_of c ∈ [es_retriever; dpr_retriever])
  ∧ component_of <$> fed_by p_ensemble "Query" "output_1"
    = [es_retriever; dpr_retriever].
Proof.
  apply (decision_feeds_one_retriever
           {[ "query" := VStr "Who is the father of Arya Stark?" ]}
           {[ "query" := VStr "Who is the father of Arya Stark?" ]}
           "output_2").
  vm_compute. reflexivity.
Defined.

(** ** Well-formedness of the two descriptors *)

(** X10: In both descriptors the component names are pairwise distinct, so are
    the pipeline names, and no pipeline lists a node name twice. *)
Theorem descriptor_names_unique :
  names_unique test_pipeline ∧ names_unique tutorial_pipeline.
Proof. unfold names_unique. split; by_evaluation. Qed.


(** A relation in which no target is a source has no cycle. *)
Lemma no_chain_acyclic {A} (R : relation A) :
  (∀ a b c, R a b → R b c → False) → ∀ v, ¬ tc R v v.
Proof.
  intros Hchain v Hv.
  assert (∀ x y, tc R x y → ∃ z, R x z) as Hfirst.
  { intros x y [? ? ?|? ? ? ? ?]; eauto. }
  inversion Hv as [? ? Hstep|? y ? Hstep Hrest]; subst.
  - exact (Hchain _ _ _ Hstep Hstep).
  - destruct (Hfirst _ _ Hrest) as [z Hz]. exact (Hchain _ _ _ Hstep Hz).
Qed.

(** X12: The references between components never form a cycle, in either
    descriptor: resolving a component's parameters cannot come back to
    the component. *)
Theorem param_references_acyclic :
  (∀ c, ¬ tc (depends_on test_pipeline) c c)
  ∧ (∀ c, ¬ tc (depends_on tutorial_pipeline) c c).
Proof.
  assert (param_refs test_pipeline
          = [("ESRetriever", "document_store", "DocumentStore")]) as Hs
    by (vm_compute; reflexivity).
  assert (param_refs tutorial_pipeline
          = [("MyESRetriever", "document_store", "MyDocumentStore")]) as Ht
    by (vm_compute; reflexivity).
  split; apply no_chain_acyclic; unfold depends_on;
    intros a b c [k Hab] [k' Hbc]; rewrite ?Hs, ?Ht in Hab, Hbc;
    apply list_elem_of_singleton in Hab, Hbc; simplify_eq.
Qed.

(** X13: Every pipeline of both descriptors lists its nodes in dependency
    order, each input naming a sentinel or an earlier node of the same
    pipeline, and has a single entry point. *)
Theorem descriptor_pipelines_single_entry :
  Forall (fun p => well_formed_pipeline p = true ∧ single_entry p)
         (pipelines test_pipeline ++ pipelines tutorial_pipeline)
  ∧ (root_inputs <$> pipelines test_pipeline) = [["Query"]; ["File"]]
  ∧ (root_inputs <$> pipelines tutorial_pipeline) = [["Query"]].
Proof.
  split_and!; [|reflexivity..].
  repeat constructor; eexists; split; reflexivity.
Qed.

